(** * DocumentMCP: the in-memory document store of [cli_project/mcp_server.py]

    A shallow embedding of the six handlers the server registers
    ([read_doc_contents], [edit_document], [list_documents], [get_document],
    [format], [summarize]) over the module-level dictionary [docs], and the
    properties the specification states about them.

    Modelling choices.
    - A Python [str] is a [string]: a finite sequence of characters.  Nothing
      below depends on the alphabet; the scan only compares characters.
    - The builtins [sub in s] and [s.replace(old, new)] are modelled by
      [str_in] and [str_replace], following their documented semantics
      (a left-to-right scan that resumes after each match, and that copies
      one character after an empty match).
    - The dictionary [docs] keeps insertion order, as Python's [dict] does:
      it is an association list, [d[k] = v] overwrites in place when [k] is
      present and appends otherwise, [d[k]] raises [KeyError] when absent.
    - The handlers read and write the global [docs] and may raise: they live
      in a state-and-exception monad [M].  A raise keeps the store as it is at
      that point (Python does not roll back). *)

From Stdlib Require Import String Ascii List Bool Arith Lia.
Import ListNotations.

Local Open Scope list_scope.
Local Open Scope string_scope.

(** ** Python strings *)

Module PyStr.

(** [sub in s]: [sub] starts at some offset of [s]. *)
Fixpoint str_in (sub s : string) : bool :=
  prefix sub s ||
  match s with
  | EmptyString => false
  | String _ t => str_in sub t
  end.

(** The scan behind [s.replace(old, new)].  [skip] counts the characters of
    the current match that are still to be passed over. *)
Fixpoint replace_scan (old new : string) (skip : nat) (s : string) : string :=
  match skip with
  | S k =>
      match s with
      | EmptyString => EmptyString
      | String _ t => replace_scan old new k t
      end
  | O =>
      if prefix old s then
        (new ++
         match s with
         | EmptyString => EmptyString
         | String c t =>
             match old with
             | EmptyString => String c (replace_scan old new 0 t)
             | String _ old' => replace_scan old new (String.length old') t
             end
         end)%string
      else
        match s with
        | EmptyString => EmptyString
        | String c t => String c (replace_scan old new 0 t)
        end
  end.

(** [s.replace(old, new)] *)
Definition str_replace (s old new : string) : string :=
  replace_scan old new 0 s.

(** The suffix of [s] from offset [n] on, [s[n:]]. *)
Fixpoint str_drop (n : nat) (s : string) : string :=
  match n, s with
  | O, _ => s
  | S _, EmptyString => EmptyString
  | S k, String _ t => str_drop k t
  end.

(** Every character of [s], each one preceded by [sep], and [sep] once more
    at the end: the [length s + 1] gaps of [s] filled with [sep]. *)
Fixpoint interleave (sep s : string) : string :=
  match s with
  | EmptyString => sep
  | String c t => (sep ++ String c (interleave sep t))%string
  end.

End PyStr.

(** ** Exceptions and results *)

Inductive exn : Type :=
| ValueError (msg : string)
| KeyError (key : string).

Inductive result (A : Type) : Type :=
| Ok (a : A)
| Raise (e : exn).

Arguments Ok {A} a.
Arguments Raise {A} e.

(** ** Python dictionaries from [str] to [str] *)

Module PyDict.

Definition dict : Type := list (string * string).

Fixpoint dict_get (d : dict) (k : string) : option string :=
  match d with
  | [] => None
  | (k', v) :: r => if (k' =? k)%string then Some v else dict_get r k
  end.

(** [k in d] *)
Definition dict_contains (d : dict) (k : string) : bool :=
  match dict_get d k with
  | Some _ => true
  | None => false
  end.

(** [d[k]] *)
Definition dict_getitem (d : dict) (k : string) : result string :=
  match dict_get d k with
  | Some v => Ok v
  | None => Raise (KeyError k)
  end.

(** [d[k] = v] *)
Fixpoint dict_setitem (d : dict) (k v : string) : dict :=
  match d with
  | [] => [(k, v)]
  | (k', v') :: r =>
      if (k' =? k)%string then (k', v) :: r else (k', v') :: dict_setitem r k v
  end.

(** [list(d.keys())] *)
Definition dict_keys (d : dict) : list string := map fst d.

End PyDict.

Export PyStr PyDict.

(** ** The monad of the handlers: the global [docs] and exceptions *)

Definition M (A : Type) : Type := dict -> result A * dict.

Definition ret {A : Type} (a : A) : M A := fun d => (Ok a, d).

Definition raise {A : Type} (e : exn) : M A := fun d => (Raise e, d).

Definition bind {A B : Type} (m : M A) (f : A -> M B) : M B :=
  fun d =>
    match m d with
    | (Ok a, d') => f a d'
    | (Raise e, d') => (Raise e, d')
    end.

Declare Scope py_scope.
Delimit Scope py_scope with py.
Notation "x <- m ;; k" := (bind m (fun x => k))
  (at level 61, m at next level, right associativity) : py_scope.
Notation "m ;; k" := (bind m (fun _ => k))
  (at level 61, right associativity) : py_scope.
Local Open Scope py_scope.

(** [k in docs] *)
Definition docs_contains (k : string) : M bool :=
  fun d => (Ok (dict_contains d k), d).

(** [docs[k]] *)
Definition docs_getitem (k : string) : M string :=
  fun d => (dict_getitem d k, d).

(** [docs[k] = v] *)
Definition docs_setitem (k v : string) : M unit :=
  fun d => (Ok tt, dict_setitem d k v).

(** [list(docs.keys())] *)
Definition docs_keys : M (list string) :=
  fun d => (Ok (dict_keys d), d).

(** ** The module [mcp_server] *)

(** The value [docs] is bound to when the module is loaded. *)
Definition docs : dict :=
  [ ("deposition.md", "This deposition covers the testimony of Angela Smith, P.E.");
    ("report.pdf", "The report details the state of a 20m condenser tower.");
    ("financials.docx", "These financials outline the project's budget and expenditures.");
    ("outlook.pdf", "This document presents the projected future performance of the system.");
    ("plan.md", "The plan outlines the steps for the project's implementation.");
    ("spec.txt", "These specifications define the technical requirements for the equipment.") ].

Definition read_doc_contents (doc_id : string) : M string :=
  present <- docs_contains doc_id ;;
  if negb present then
    raise (ValueError ("Document '" ++ doc_id ++ "' not found"))
  else
    docs_getitem doc_id.

Definition edit_document (doc_id old_string new_string : string) : M string :=
  present <- docs_contains doc_id ;;
  if negb present then
    raise (ValueError ("Document '" ++ doc_id ++ "' not found"))
  else
    content <- docs_getitem doc_id ;;
    if negb (str_in old_string content) then
      raise (ValueError ("String '" ++ old_string ++ "' not found in document '"
                           ++ doc_id ++ "'"))
    else
      content <- docs_getitem doc_id ;;
      docs_setitem doc_id (str_replace content old_string new_string) ;;
      ret ("Successfully replaced '" ++ old_string ++ "' with '" ++ new_string
             ++ "' in '" ++ doc_id ++ "'").

Definition list_documents : M (list string) := docs_keys.

Definition get_document (doc_id : string) : M string :=
  present <- docs_contains doc_id ;;
  if negb present then
    raise (ValueError ("Document '" ++ doc_id ++ "' not found"))
  else
    docs_getitem doc_id.

Definition format (doc_id : string) : M string :=
  let prompt_text :=
    "Please rewrite the document '" ++ doc_id ++ "' in proper markdown format.

Steps:
1. Use the read_doc_contents tool to fetch the current document content
2. Reformat the content using proper markdown syntax (headers, lists, emphasis, etc.)
3. Use the edit_document tool to replace the old content with the new markdown-formatted content
4. Confirm the changes were successful

Make sure to preserve all the original information while improving the formatting." in
  ret prompt_text.

Definition summarize (doc_id : string) : M string :=
  let prompt_text :=
    "Please provide a concise summary of the document '" ++ doc_id ++ "'.

Steps:
1. Use the read_doc_contents tool to fetch the document content
2. Analyze the key points and main ideas
3. Provide a brief, clear summary (2-3 sentences)

Focus on the most important information and keep it concise." in
  ret prompt_text.

(** ** Requests

    The host framework maps each incoming call to one handler and runs it to
    completion before the next one.  An exception ends that call only: it is
    reported to the caller, and the process goes on with [docs] as the handler
    left it. *)

Inductive request : Type :=
| ReadDocContents (doc_id : string)
| EditDocument (doc_id old_string new_string : string)
| ListDocuments
| GetDocument (doc_id : string)
| Format (doc_id : string)
| Summarize (doc_id : string).

Inductive response : Type :=
| Text (s : string)
| Ids (l : list string).

Definition handle (r : request) : M response :=
  match r with
  | ReadDocContents doc_id => s <- read_doc_contents doc_id ;; ret (Text s)
  | EditDocument doc_id o n => s <- edit_document doc_id o n ;; ret (Text s)
  | ListDocuments => l <- list_documents ;; ret (Ids l)
  | GetDocument doc_id => s <- get_document doc_id ;; ret (Text s)
  | Format doc_id => s <- format doc_id ;; ret (Text s)
  | Summarize doc_id => s <- summarize doc_id ;; ret (Text s)
  end.

(** The store after one request, and after a sequence of them. *)
Definition serve (d : dict) (r : request) : dict := snd (handle r d).

Definition serve_all (rs : list request) (d : dict) : dict :=
  fold_left serve rs d.

(** ** Notions of the specification *)

(** The ids the store is seeded with. *)
Definition seeded_ids : list string :=
  ["deposition.md"; "report.pdf"; "financials.docx"; "outlook.pdf";
   "plan.md"; "spec.txt"].

(** [old] occurs in [s]. *)
Definition occurs (old s : string) : Prop :=
  exists p r, s = p ++ old ++ r.

(** The first occurrence of [old] in [s] comes right after [p] and is followed
    by [r]. *)
Definition leftmost (old s p r : string) : Prop :=
  s = p ++ old ++ r /\
  forall p' r', s = p' ++ old ++ r' -> String.length p <= String.length p'.

(** "Replaces all non-overlapping occurrences, scanning left to right":
    the text before the first occurrence is kept, the occurrence becomes
    [new], and the scan goes on in what follows the occurrence; what holds no
    occurrence is kept as it is.  The empty string occurs before every
    character and at the end; the scan then moves on by one character. *)
Inductive Replaced (old new : string) : string -> string -> Prop :=
| Replaced_none s :
    ~ occurs old s ->
    Replaced old new s s
| Replaced_occ s p r r' :
    old <> "" ->
    leftmost old s p r ->
    Replaced old new r r' ->
    Replaced old new s (p ++ new ++ r')
| Replaced_empty_end :
    old = "" ->
    Replaced old new "" new
| Replaced_empty_char c t r' :
    old = "" ->
    Replaced old new t r' ->
    Replaced old new (String c t) (new ++ String c r').

(** The number of offsets of [s] at which [sub] starts, overlaps included. *)
Fixpoint occurrences (sub s : string) : nat :=
  (if prefix sub s then 1 else 0) +
  match s with
  | EmptyString => 0
  | String _ t => occurrences sub t
  end.

(** The number of occurrences the scan of [str_replace] replaces: the
    occurrences met from left to right without overlap, which is what Python's
    [s.count(old)] returns. *)
Fixpoint count_scan (old : string) (skip : nat) (s : string) : nat :=
  match skip with
  | S k =>
      match s with
      | EmptyString => 0
      | String _ t => count_scan old k t
      end
  | O =>
      if prefix old s then
        S match s with
          | EmptyString => 0
          | String _ t =>
              match old with
              | EmptyString => count_scan old 0 t
              | String _ old' => count_scan old (String.length old') t
              end
          end
      else
        match s with
        | EmptyString => 0
        | String _ t => count_scan old 0 t
        end
  end.

Definition str_count (s old : string) : nat := count_scan old 0 s.

(** The two errors of the specification.  The code raises [ValueError] for
    both; they differ by their message. *)
Definition NotFound (doc_id : string) : exn :=
  ValueError ("Document '" ++ doc_id ++ "' not found").

Definition SubstringNotFound (old_string doc_id : string) : exn :=
  ValueError ("String '" ++ old_string ++ "' not found in document '"
                ++ doc_id ++ "'").

(** The exception [e] is a [ValueError] whose message mentions [x]. *)
Definition mentions (e : exn) (x : string) : Prop :=
  exists msg, e = ValueError msg /\ str_in x msg = true.

(** [r] is a call of [edit_document]. *)
Definition is_edit (r : request) : bool :=
  match r with
  | EditDocument _ _ _ => true
  | _ => false
  end.

(** [r] is a call of [edit_document] on the document [doc_id]. *)
Definition edits (doc_id : string) (r : request) : bool :=
  match r with
  | EditDocument i _ _ => (i =? doc_id)%string
  | _ => false
  end.

(** * Properties *)

(** ** Strings *)

Section Strings.

Implicit Types s t p r old new : string.

Lemma append_nil_r s : s ++ "" = s.
Proof. induction s as [|c s IH]; simpl; [reflexivity | now rewrite IH]. Qed.

Lemma append_assoc s t r : (s ++ t) ++ r = s ++ t ++ r.
Proof. induction s as [|c s IH]; simpl; [reflexivity | now rewrite IH]. Qed.

Lemma length_append s t :
  String.length (s ++ t) = String.length s + String.length t.
Proof. induction s as [|c s IH]; simpl; [reflexivity | now rewrite IH]. Qed.

Lemma prefix_occurs old s :
  prefix old s = true <-> exists r, s = old ++ r.
Proof.
  revert s; induction old as [|a old IH]; intros s; simpl.
  - destruct s; split; eauto.
  - destruct s as [|b s]; simpl.
    + split; [discriminate | intros [r H]; discriminate].
    + destruct (ascii_dec a b) as [->|Hab].
      * rewrite IH. split; intros [r H]; exists r; [now subst | now inversion H].
      * split; [discriminate | intros [r H]; inversion H; congruence].
Qed.

Lemma prefix_append old r : prefix old (old ++ r) = true.
Proof. apply prefix_occurs; eauto. Qed.

Lemma str_in_occurs old s : str_in old s = true <-> occurs old s.
Proof.
  unfold occurs; induction s as [|c s IH]; cbn [str_in].
  - rewrite orb_false_r, prefix_occurs. split.
    + intros [r H]; exists "", r; exact H.
    + intros [p [r H]]. destruct p; [eauto | discriminate].
  - rewrite orb_true_iff, prefix_occurs, IH. split.
    + intros [[r H] | [p [r H]]].
      * exists "", r; exact H.
      * exists (String c p), r; simpl; now rewrite H.
    + intros [p [r H]]. destruct p as [|c' p]; simpl in H.
      * left; eauto.
      * right; exists p, r; now inversion H.
Qed.

Lemma str_in_absent old s : str_in old s = false <-> ~ occurs old s.
Proof.
  rewrite <- str_in_occurs. destruct (str_in old s); split; congruence.
Qed.

Lemma str_in_middle old p r : str_in old (p ++ old ++ r) = true.
Proof. apply str_in_occurs; exists p, r; reflexivity. Qed.

Lemma occurs_trans old new s : occurs old new -> occurs new s -> occurs old s.
Proof.
  intros [p [r ->]] [p' [r' ->]].
  exists (p' ++ p), (r ++ r'). now rewrite !append_assoc.
Qed.

Lemma occurs_empty s : occurs "" s.
Proof. exists "", s; reflexivity. Qed.

End Strings.

(** ** The scan of [str_replace] *)

Section Replace.

Variables old new : string.

Lemma str_drop_append p r : str_drop (String.length p) (p ++ r) = r.
Proof. induction p as [|c p IH]; simpl; [now destruct r | exact IH]. Qed.

Lemma replace_scan_skip k s :
  old <> "" ->
  replace_scan old new k s = replace_scan old new 0 (str_drop k s).
Proof.
  intros Hold. revert s; induction k as [|k IH]; intros s.
  - now destruct s.
  - destruct s as [|c s]; cbn [replace_scan str_drop].
    + destruct old; [congruence | reflexivity].
    + apply IH.
Qed.

(** A match at the head: [new] is emitted and the scan resumes after it. *)
Lemma replace_match r :
  old <> "" ->
  str_replace (old ++ r) old new = new ++ str_replace r old new.
Proof.
  intros Hold. unfold str_replace.
  destruct old as [|a o] eqn:E; [congruence |].
  cbn [append replace_scan]. rewrite <- E at 1.
  change (String a (o ++ r)) with (String a o ++ r) at 1. rewrite <- E at 1.
  rewrite prefix_append. f_equal.
  rewrite <- E, replace_scan_skip by congruence.
  now rewrite str_drop_append.
Qed.

(** No match at the head: the character is copied. *)
Lemma replace_step c t :
  prefix old (String c t) = false ->
  str_replace (String c t) old new = String c (str_replace t old new).
Proof.
  intros H. unfold str_replace. cbn [replace_scan]. now rewrite H.
Qed.


Lemma replace_absent s : ~ occurs old s -> str_replace s old new = s.
Proof.
  induction s as [|c s IH]; intros H.
  - unfold str_replace; cbn [replace_scan].
    destruct (prefix old "") eqn:E; [|reflexivity].
    exfalso; apply H. apply str_in_occurs. cbn [str_in]. now rewrite E.
  - rewrite replace_step.
    + f_equal. apply IH. intros [p [r Hs]]. apply H.
      exists (String c p), r. simpl. now rewrite Hs.
    + destruct (prefix old (String c s)) eqn:E; [|reflexivity].
      exfalso; apply H. apply str_in_occurs. cbn [str_in]. now rewrite E.
Qed.

Lemma leftmost_head r s :
  s = old ++ r -> leftmost old s "" r.
Proof. intros ->. split; [reflexivity | intros; simpl; lia]. Qed.

Lemma leftmost_tail c s p r :
  prefix old (String c s) = false ->
  leftmost old s p r -> leftmost old (String c s) (String c p) r.
Proof.
  intros Hc [Hs Hmin]. split.
  - simpl. now rewrite Hs.
  - intros [|c' p'] r' H; simpl in H |- *.
    + rewrite (proj2 (prefix_occurs old (String c s))) in Hc by eauto.
      discriminate.
    + inversion H; subst c'. apply le_n_S. eapply Hmin; eauto.
Qed.

Lemma leftmost_inv c p s r :
  leftmost old s (String c p) r ->
  exists t, s = String c t /\ prefix old s = false /\ leftmost old t p r.
Proof.
  intros [Hs Hmin]. exists (p ++ old ++ r). split; [exact Hs |]. split.
  - destruct (prefix old s) eqn:E; [|reflexivity].
    apply prefix_occurs in E. destruct E as [r' E].
    specialize (Hmin "" r' E). simpl in Hmin. lia.
  - split; [reflexivity |]. intros p' r' H.
    specialize (Hmin (String c p') r'). simpl in Hmin.
    rewrite Hs in Hmin. simpl in Hmin. rewrite H in Hmin.
    specialize (Hmin eq_refl). lia.
Qed.

(** Every string in which [old] occurs has a first occurrence. *)
Lemma leftmost_exists s : occurs old s -> exists p r, leftmost old s p r.
Proof.
  induction s as [|c s IH]; intros H.
  - destruct H as [p [r H]]. destruct p; [|discriminate].
    exists "", r. now apply leftmost_head.
  - destruct (prefix old (String c s)) eqn:E.
    + apply prefix_occurs in E. destruct E as [r E].
      exists "", r. now apply leftmost_head.
    + destruct IH as [p [r Hl]].
      * destruct H as [p [r H]]. destruct p as [|c' p]; simpl in H.
        -- rewrite (proj2 (prefix_occurs old (String c s))) in E by eauto.
           discriminate.
        -- exists p, r. now inversion H.
      * exists (String c p), r. now apply leftmost_tail.
Qed.

(** The scan copies what precedes the first occurrence, emits [new] for it and
    resumes after it. *)
Lemma replace_leftmost s p r :
  old <> "" ->
  leftmost old s p r ->
  str_replace s old new = p ++ new ++ str_replace r old new.
Proof.
  intros Hold. revert s; induction p as [|c p IH]; intros s Hl.
  - destruct Hl as [-> _]. now apply replace_match.
  - apply leftmost_inv in Hl. destruct Hl as [t [-> [Hp Hl]]].
    rewrite replace_step by exact Hp. simpl. f_equal. now apply IH.
Qed.

(** With the empty [old], [new] goes before every character and at the end. *)
Lemma replace_empty_old s : old = "" -> str_replace s old new = interleave new s.
Proof.
  intros ->. unfold str_replace.
  induction s as [|c s IH]; cbn [replace_scan prefix interleave].
  - apply append_nil_r.
  - now rewrite IH.
Qed.

End Replace.

(** ** The scan against the specification's wording *)

Section Replaced.

Variables old new : string.

Lemma leftmost_shorter s p r :
  old <> "" -> leftmost old s p r -> String.length r < String.length s.
Proof.
  intros Hold [-> _]. rewrite !length_append.
  destruct old; [congruence | simpl; lia].
Qed.

Lemma replace_Replaced_nonempty s :
  old <> "" -> Replaced old new s (str_replace s old new).
Proof.
  intros Hold.
  remember (String.length s) as n eqn:Hn.
  revert s Hn; induction n as [n IH] using lt_wf_ind; intros s Hn.
  destruct (str_in old s) eqn:E.
  - apply str_in_occurs, leftmost_exists in E. destruct E as [p [r Hl]].
    rewrite (replace_leftmost old new s p r Hold Hl).
    apply Replaced_occ with (r := r); [exact Hold | exact Hl |].
    apply (IH (String.length r)); [|reflexivity].
    subst n. now apply leftmost_shorter with (p := p).
  - apply str_in_absent in E. rewrite replace_absent by exact E.
    now apply Replaced_none.
Qed.

Lemma replace_Replaced_empty s :
  old = "" -> Replaced old new s (str_replace s old new).
Proof.
  intros Hold. rewrite replace_empty_old by exact Hold.
  induction s as [|c s IH]; cbn [interleave].
  - now apply Replaced_empty_end.
  - now apply Replaced_empty_char.
Qed.

(** [str_replace] does what the specification describes ... *)
Lemma replace_Replaced s : Replaced old new s (str_replace s old new).
Proof.
  destruct (string_dec old "") as [E | E].
  - now apply replace_Replaced_empty.
  - now apply replace_Replaced_nonempty.
Qed.

(** ... and nothing else does. *)
Lemma Replaced_replace s out :
  Replaced old new s out -> out = str_replace s old new.
Proof.
  induction 1 as [s H | s p r r' Hold Hl _ IH | Hold | c t r' Hold _ IH].
  - symmetry; now apply replace_absent.
  - rewrite (replace_leftmost old new s p r Hold Hl). now rewrite IH.
  - now rewrite replace_empty_old.
  - rewrite replace_empty_old in * by exact Hold. cbn [interleave]. now rewrite IH.
Qed.

(** When [old] occurs, the result holds a copy of [new]. *)
Lemma replace_occurs s :
  occurs old s -> occurs new (str_replace s old new).
Proof.
  intros H. destruct (string_dec old "") as [E | E].
  - rewrite replace_empty_old by exact E.
    destruct s; cbn [interleave]; [exists "", "" | exists "", (String a (interleave new s))];
      simpl; now rewrite ?append_nil_r.
  - apply leftmost_exists in H. destruct H as [p [r Hl]].
    rewrite (replace_leftmost old new s p r E Hl). now exists p, (str_replace r old new).
Qed.

End Replaced.

(** ** Dictionaries *)

Section Dict.

Implicit Types (d : dict) (k v : string).

Lemma dict_contains_get d k :
  dict_contains d k = true <-> exists v, dict_get d k = Some v.
Proof.
  unfold dict_contains. destruct (dict_get d k); split; eauto.
  - discriminate.
  - intros [v H]; discriminate.
Qed.

Lemma dict_get_setitem d k v : dict_get (dict_setitem d k v) k = Some v.
Proof.
  induction d as [|[k' v'] d IH]; simpl.
  - now rewrite String.eqb_refl.
  - destruct (k' =? k)%string eqn:E; simpl; now rewrite E.
Qed.

Lemma dict_get_setitem_other d k v k' :
  k' <> k -> dict_get (dict_setitem d k v) k' = dict_get d k'.
Proof.
  intros Hk. induction d as [|[k0 v0] d IH]; simpl.
  - apply String.eqb_neq in Hk. now rewrite String.eqb_sym, Hk.
  - destruct (k0 =? k)%string eqn:E; simpl.
    + apply String.eqb_eq in E; subst k0.
      apply String.eqb_neq in Hk. now rewrite String.eqb_sym, Hk.
    + now rewrite IH.
Qed.

(** Assigning to a key that is present keeps the keys and their order. *)
Lemma dict_keys_setitem d k v :
  dict_contains d k = true -> dict_keys (dict_setitem d k v) = dict_keys d.
Proof.
  unfold dict_contains, dict_keys.
  induction d as [|[k' v'] d IH]; simpl; [discriminate |].
  destruct (k' =? k)%string; simpl; [reflexivity |].
  intros H. now rewrite IH.
Qed.

Lemma dict_setitem_twice d k v v' :
  dict_setitem (dict_setitem d k v) k v' = dict_setitem d k v'.
Proof.
  induction d as [|[k0 v0] d IH]; simpl.
  - now rewrite String.eqb_refl.
  - destruct (k0 =? k)%string eqn:E; simpl; rewrite E; [reflexivity | now rewrite IH].
Qed.

Lemma dict_setitem_same d k v : dict_get d k = Some v -> dict_setitem d k v = d.
Proof.
  induction d as [|[k0 v0] d IH]; simpl; [discriminate |].
  destruct (k0 =? k)%string; intros H; [now inversion H | now rewrite IH].
Qed.

End Dict.

(** ** The handlers, one equation each *)

Section Handlers.

Implicit Types (d : dict) (doc_id old new content : string).

(** Runs a handler whose tests are decided by the equations at hand. *)
Ltac run_handler :=
  unfold read_doc_contents, edit_document, get_document, bind, docs_contains,
    docs_getitem, docs_setitem, dict_contains, dict_getitem, raise, ret;
  repeat (cbn beta iota delta [negb]; try match goal with
          | H : _ = _ |- _ => rewrite H
          end);
  try reflexivity.

Lemma read_doc_contents_present d doc_id content :
  dict_get d doc_id = Some content ->
  read_doc_contents doc_id d = (Ok content, d).
Proof.
  intros H. run_handler.
Qed.

Lemma read_doc_contents_absent d doc_id :
  dict_contains d doc_id = false ->
  read_doc_contents doc_id d =
    (Raise (ValueError ("Document '" ++ doc_id ++ "' not found")), d).
Proof.
  intros H. unfold read_doc_contents, bind, docs_contains. rewrite H. reflexivity.
Qed.

Lemma edit_document_absent d doc_id old new :
  dict_contains d doc_id = false ->
  edit_document doc_id old new d =
    (Raise (ValueError ("Document '" ++ doc_id ++ "' not found")), d).
Proof.
  intros H. unfold edit_document, bind, docs_contains. rewrite H. reflexivity.
Qed.

Lemma edit_document_found d doc_id old new content :
  dict_get d doc_id = Some content ->
  str_in old content = true ->
  edit_document doc_id old new d =
    (Ok ("Successfully replaced '" ++ old ++ "' with '" ++ new ++ "' in '"
           ++ doc_id ++ "'"),
     dict_setitem d doc_id (str_replace content old new)).
Proof.
  intros H Hin. run_handler.
Qed.

Lemma edit_document_not_found d doc_id old new content :
  dict_get d doc_id = Some content ->
  str_in old content = false ->
  edit_document doc_id old new d =
    (Raise (ValueError ("String '" ++ old ++ "' not found in document '"
                          ++ doc_id ++ "'")), d).
Proof.
  intros H Hin. run_handler.
Qed.

(** A lookup never touches the store. *)
Lemma read_doc_contents_store d doc_id : snd (read_doc_contents doc_id d) = d.
Proof.
  destruct (dict_get d doc_id) as [c|] eqn:G.
  - now rewrite (read_doc_contents_present d doc_id c G).
  - rewrite read_doc_contents_absent; [reflexivity |].
    unfold dict_contains; now rewrite G.
Qed.

(** An edit keeps the keys and their order. *)
Lemma edit_document_keys d doc_id old new :
  dict_keys (snd (edit_document doc_id old new d)) = dict_keys d.
Proof.
  destruct (dict_get d doc_id) as [c|] eqn:G.
  - destruct (str_in old c) eqn:Hin.
    + rewrite (edit_document_found d doc_id old new c G Hin). cbn [snd].
      apply dict_keys_setitem, dict_contains_get; eauto.
    + now rewrite (edit_document_not_found d doc_id old new c G Hin).
  - rewrite edit_document_absent; [reflexivity |].
    unfold dict_contains; now rewrite G.
Qed.

Lemma bind_ret_store {A B : Type} (m : M A) (f : A -> B) d :
  snd ((x <- m ;; ret (f x)) d) = snd (m d).
Proof. unfold bind, ret. now destruct (m d) as [[a | e] d']. Qed.

(** No handler adds, removes or reorders a key. *)
Lemma serve_keys d (r : request) : dict_keys (serve d r) = dict_keys d.
Proof.
  unfold serve. destruct r as [i | i o n | | i | i | i]; cbn [handle];
    rewrite bind_ret_store.
  - now rewrite read_doc_contents_store.
  - apply edit_document_keys.
  - reflexivity.
  - change (get_document i) with (read_doc_contents i).
    now rewrite read_doc_contents_store.
  - reflexivity.
  - reflexivity.
Qed.

Lemma serve_all_keys (rs : list request) d :
  dict_keys (serve_all rs d) = dict_keys d.
Proof.
  revert d; induction rs as [|r rs IH]; intros d; cbn [serve_all fold_left].
  - reflexivity.
  - change (dict_keys (serve_all rs (serve d r)) = dict_keys d).
    now rewrite IH, serve_keys.
Qed.

End Handlers.

(** ** Counting occurrences *)

Section Count.

Variable old : string.

Lemma count_scan_skip k s :
  old <> "" -> count_scan old k s = count_scan old 0 (str_drop k s).
Proof.
  intros Hold. revert s; induction k as [|k IH]; intros s.
  - now destruct s.
  - destruct s as [|c s]; cbn [count_scan str_drop].
    + destruct old; [congruence | reflexivity].
    + apply IH.
Qed.

Lemma count_match r :
  old <> "" -> str_count (old ++ r) old = S (str_count r old).
Proof.
  intros Hold. unfold str_count.
  destruct old as [|a o] eqn:E; [congruence |].
  cbn [append count_scan]. rewrite <- E at 1.
  change (String a (o ++ r)) with (String a o ++ r) at 1. rewrite <- E at 1.
  rewrite prefix_append. f_equal.
  rewrite <- E, count_scan_skip by congruence.
  now rewrite str_drop_append.
Qed.

Lemma count_step c t :
  prefix old (String c t) = false ->
  str_count (String c t) old = str_count t old.
Proof.
  intros H. unfold str_count. cbn [count_scan]. now rewrite H.
Qed.

Lemma count_leftmost s p r :
  old <> "" -> leftmost old s p r -> str_count s old = S (str_count r old).
Proof.
  intros Hold. revert s; induction p as [|c p IH]; intros s Hl.
  - destruct Hl as [-> _]. now apply count_match.
  - apply leftmost_inv in Hl. destruct Hl as [t [-> [Hp Hl]]].
    rewrite count_step by exact Hp. now apply IH.
Qed.

Lemma count_absent s : ~ occurs old s -> str_count s old = 0.
Proof.
  induction s as [|c s IH]; intros H.
  - unfold str_count; cbn [count_scan].
    destruct (prefix old "") eqn:E; [|reflexivity].
    exfalso; apply H. apply str_in_occurs. cbn [str_in]. now rewrite E.
  - rewrite count_step.
    + apply IH. intros [p [r Hs]]. apply H.
      exists (String c p), r. simpl. now rewrite Hs.
    + destruct (prefix old (String c s)) eqn:E; [|reflexivity].
      exfalso; apply H. apply str_in_occurs. cbn [str_in]. now rewrite E.
Qed.

Lemma count_empty_old s : old = "" -> str_count s old = S (String.length s).
Proof.
  intros ->. unfold str_count.
  induction s as [|c s IH]; cbn [count_scan prefix String.length].
  - reflexivity.
  - now rewrite IH.
Qed.

Lemma occurrences_append p s : occurrences old s <= occurrences old (p ++ s).
Proof.
  induction p as [|c p IH]; [apply le_n |].
  cbn [append occurrences]. lia.
Qed.

Lemma occurrences_head s :
  old <> "" -> S (occurrences old s) <= occurrences old (old ++ s).
Proof.
  intros Hold. pose proof (prefix_append old s) as Hp.
  destruct old as [|a o] eqn:E; [congruence |].
  cbn [append occurrences]. cbn [append] in Hp. rewrite Hp.
  pose proof (occurrences_append o s). rewrite E in *. lia.
Qed.

(** When [old] starts nowhere but after [p] and inside [s], the occurrence
    after [p] is the first one. *)
Lemma occurrences_leftmost p s :
  old <> "" ->
  occurrences old (p ++ old ++ s) <= S (occurrences old s) ->
  leftmost old (p ++ old ++ s) p s.
Proof.
  intros Hold. induction p as [|c p IH]; intros H.
  - now apply leftmost_head.
  - cbn [append occurrences] in H.
    pose proof (occurrences_head s Hold) as H1.
    pose proof (occurrences_append p (old ++ s)) as H2.
    destruct (prefix old (String c (p ++ old ++ s))) eqn:E; [lia |].
    apply (leftmost_tail old c (p ++ old ++ s) p s E). apply IH. lia.
Qed.

Lemma occurrences_absent s : ~ occurs old s <-> occurrences old s = 0.
Proof.
  rewrite <- str_in_absent.
  induction s as [|c s IH]; cbn [str_in occurrences].
  - destruct (prefix old ""); simpl; split; (congruence || lia).
  - destruct (prefix old (String c s)); simpl; [split; (congruence || lia) | exact IH].
Qed.

End Count.

(** ** Undoing a replacement *)

Section RoundTrip.

Variables old new : string.
Hypothesis new_nonempty : new <> "".

(** Every replaced occurrence leaves a copy of [new] in the result. *)
Lemma Replaced_occurrences s out :
  Replaced old new s out -> str_count s old <= occurrences new out.
Proof.
  induction 1 as [s H | s p r r' Hold Hl _ IH | Hold | c t r' Hold _ IH].
  - rewrite count_absent by exact H. lia.
  - rewrite (count_leftmost old s p r Hold Hl).
    pose proof (occurrences_append new p (new ++ r')).
    pose proof (occurrences_head new r' new_nonempty). lia.
  - rewrite count_empty_old by exact Hold. cbn [String.length].
    pose proof (occurrences_head new "" new_nonempty) as H.
    rewrite append_nil_r in H. lia.
  - rewrite count_empty_old in * by exact Hold. cbn [String.length].
    pose proof (occurrences_head new (String c r') new_nonempty) as H.
    cbn [occurrences] in H. lia.
Qed.

(** When the result holds no copy of [new] besides those, replacing [new] by
    [old] in it gives the string back. *)
Lemma Replaced_round_trip s out :
  Replaced old new s out ->
  occurrences new out <= str_count s old ->
  str_replace out new old = s.
Proof.
  induction 1 as [s H | s p r r' Hold Hl Hr IH | Hold | c t r' Hold Hr IH];
    intros Hn.
  - rewrite count_absent in Hn by exact H.
    apply replace_absent, occurrences_absent. lia.
  - rewrite (count_leftmost old s p r Hold Hl) in Hn.
    pose proof (Replaced_occurrences r r' Hr) as H1.
    pose proof (occurrences_append new p (new ++ r')) as H2.
    pose proof (occurrences_head new r' new_nonempty) as H3.
    rewrite (replace_leftmost new old (p ++ new ++ r') p r' new_nonempty)
      by (apply occurrences_leftmost; [exact new_nonempty | lia]).
    rewrite IH by lia. symmetry. apply Hl.
  - subst old. rewrite <- (append_nil_r new) at 1.
    rewrite replace_match by exact new_nonempty.
    rewrite replace_absent; [reflexivity |].
    intros [p [r H]]. destruct p; [|discriminate]. simpl in H.
    destruct new; [congruence | discriminate].
  - rewrite count_empty_old in * by exact Hold. cbn [String.length] in Hn.
    pose proof (Replaced_occurrences t r' Hr) as H1.
    rewrite count_empty_old in H1 by exact Hold.
    pose proof (occurrences_head new (String c r') new_nonempty) as H3.
    cbn [occurrences] in H3.
    rewrite replace_match by exact new_nonempty.
    rewrite replace_step
      by (destruct (prefix new (String c r')); [lia | reflexivity]).
    rewrite IH by (destruct (prefix new (String c r')); lia).
    now subst old.
Qed.

End RoundTrip.

(** ** The specification's claims *)

Lemma NotFound_mentions doc_id : mentions (NotFound doc_id) doc_id.
Proof. eexists; split; [reflexivity | apply str_in_middle]. Qed.

Lemma SubstringNotFound_mentions old doc_id :
  mentions (SubstringNotFound old doc_id) old /\
  mentions (SubstringNotFound old doc_id) doc_id.
Proof.
  split; (eexists; split; [reflexivity |]).
  - apply str_in_middle.
  - apply str_in_occurs.
    exists ("String '" ++ old ++ "' not found in document '"), "'".
    now rewrite !append_assoc.
Qed.

Lemma success_message_names old new doc_id :
  str_in doc_id
    ("Successfully replaced '" ++ old ++ "' with '" ++ new ++ "' in '"
       ++ doc_id ++ "'") = true.
Proof.
  apply str_in_occurs.
  exists ("Successfully replaced '" ++ old ++ "' with '" ++ new ++ "' in '"), "'".
  now rewrite !append_assoc.
Qed.

(** C1.  When [doc_id] is in the store and [old] occurs in its content, an
    edit succeeds with a message that names the document; the stored content
    becomes the old one with every occurrence of [old] replaced by [new] in a
    left-to-right scan without overlaps, and a following read returns it.  On
    the seeded store, editing plan.md from implementation to rollout makes the
    read return the sentence that ends in rollout. *)
Theorem C1_edit_replaces_all :
  (forall d doc_id old new content,
      dict_get d doc_id = Some content ->
      str_in old content = true ->
      exists msg d' out,
        edit_document doc_id old new d = (Ok msg, d') /\
        str_in doc_id msg = true /\
        Replaced old new content out /\
        read_doc_contents doc_id d' = (Ok out, d')) /\
  (exists msg d',
      edit_document "plan.md" "implementation" "rollout" docs = (Ok msg, d') /\
      str_in "plan.md" msg = true /\
      read_doc_contents "plan.md" d' =
        (Ok "The plan outlines the steps for the project's rollout.", d')).
Proof.
  split.
  - intros d doc_id old new content G Hin.
    exists ("Successfully replaced '" ++ old ++ "' with '" ++ new ++ "' in '"
              ++ doc_id ++ "'"),
      (dict_setitem d doc_id (str_replace content old new)),
      (str_replace content old new).
    split; [now apply edit_document_found |].
    split; [apply success_message_names |].
    split; [apply replace_Replaced |].
    apply read_doc_contents_present, dict_get_setitem.
  - do 2 eexists. split; [vm_compute; reflexivity |]. split; reflexivity.
Qed.

Lemma C1_edit_replaces_all_witness :
  exists msg d' out,
    edit_document "spec.txt" "the " "" docs = (Ok msg, d') /\
    str_in "spec.txt" msg = true /\
    Replaced "the " "" "These specifications define the technical requirements for the equipment." out /\
    read_doc_contents "spec.txt" d' = (Ok out, d').
Proof.
  apply (proj1 C1_edit_replaces_all docs "spec.txt" "the " ""); reflexivity.
Defined.

(** C2.  When [doc_id] is in the store and [old] does not occur in its
    content, an edit raises the substring-not-found error, whose message
    mentions [old] and [doc_id], and the store is the one before the call:
    every document keeps its content. *)
Theorem C2_edit_absent_substring d doc_id old new content :
  dict_get d doc_id = Some content ->
  str_in old content = false ->
  edit_document doc_id old new d = (Raise (SubstringNotFound old doc_id), d) /\
  mentions (SubstringNotFound old doc_id) old /\
  mentions (SubstringNotFound old doc_id) doc_id /\
  (forall k, dict_get (snd (edit_document doc_id old new d)) k = dict_get d k).
Proof.
  intros G Hin.
  pose proof (edit_document_not_found d doc_id old new content G Hin) as E.
  split; [exact E |].
  split; [apply SubstringNotFound_mentions |].
  split; [apply SubstringNotFound_mentions |].
  intros k. now rewrite E.
Qed.

Lemma C2_edit_absent_substring_witness :
  edit_document "report.pdf" "30m" "40m" docs =
    (Raise (SubstringNotFound "30m" "report.pdf"), docs) /\
  mentions (SubstringNotFound "30m" "report.pdf") "30m" /\
  mentions (SubstringNotFound "30m" "report.pdf") "report.pdf" /\
  (forall k, dict_get (snd (edit_document "report.pdf" "30m" "40m" docs)) k
             = dict_get docs k).
Proof.
  apply (C2_edit_absent_substring docs "report.pdf" "30m" "40m"
           "The report details the state of a 20m condenser tower.");
    reflexivity.
Defined.

(** C3, as stated, fails.  On the seeded store, editing plan.md from
    implementation to plan and then from plan to implementation succeeds
    twice and leaves a content that differs from the seeded one: the second
    edit also rewrites the plan that was there from the start. *)
Lemma C3_round_trip_counterexample :
  exists msg1 d1 msg2 d2,
    dict_get docs "plan.md"
      = Some "The plan outlines the steps for the project's implementation." /\
    str_in "implementation"
      "The plan outlines the steps for the project's implementation." = true /\
    edit_document "plan.md" "implementation" "plan" docs = (Ok msg1, d1) /\
    edit_document "plan.md" "plan" "implementation" d1 = (Ok msg2, d2) /\
    read_doc_contents "plan.md" d2
      = (Ok "The implementation outlines the steps for the project's implementation.", d2) /\
    "The implementation outlines the steps for the project's implementation."
      <> "The plan outlines the steps for the project's implementation.".
Proof.
  do 4 eexists.
  split; [reflexivity |]. split; [reflexivity |].
  split; [vm_compute; reflexivity |].
  split; [vm_compute; reflexivity |].
  split; [reflexivity | discriminate].
Qed.

(** C3, amended.  When [doc_id] is in the store, [old] occurs in its content,
    [new] is not empty and [new] occurs in the edited content exactly as many
    times as [old] was replaced (that is, only where the edit put it), editing
    from [old] to [new] and then from [new] to [old] succeeds twice and gives
    back the store as it was, so that reading [doc_id] returns the original
    content. *)
Theorem C3_round_trip d doc_id old new content :
  dict_get d doc_id = Some content ->
  str_in old content = true ->
  new <> "" ->
  occurrences new (str_replace content old new) = str_count content old ->
  exists msg1 d1 msg2,
    edit_document doc_id old new d = (Ok msg1, d1) /\
    edit_document doc_id new old d1 = (Ok msg2, d) /\
    read_doc_contents doc_id d = (Ok content, d).
Proof.
  intros G Hin Hnew Hocc.
  pose proof (replace_Replaced old new content) as HR.
  assert (Hback : str_replace (str_replace content old new) new old = content).
  { apply (Replaced_round_trip old new Hnew content _ HR). lia. }
  do 3 eexists. split; [| split].
  - apply edit_document_found; eassumption.
  - erewrite edit_document_found.
    + rewrite Hback, dict_setitem_twice, (dict_setitem_same d doc_id content G).
      reflexivity.
    + apply dict_get_setitem.
    + apply str_in_occurs, replace_occurs, str_in_occurs, Hin.
  - now apply read_doc_contents_present.
Qed.

Lemma C3_round_trip_witness :
  exists msg1 d1 msg2,
    edit_document "plan.md" "implementation" "rollout" docs = (Ok msg1, d1) /\
    edit_document "plan.md" "rollout" "implementation" d1 = (Ok msg2, docs) /\
    read_doc_contents "plan.md" docs
      = (Ok "The plan outlines the steps for the project's implementation.", docs).
Proof.
  apply (C3_round_trip docs "plan.md" "implementation" "rollout"
           "The plan outlines the steps for the project's implementation.");
    [reflexivity | reflexivity | discriminate | reflexivity].
Defined.

(** The weaker condition that [new] is absent from the original content is
    not enough: copies of [new] can overlap what surrounds them. *)
Example round_trip_needs_more :
  str_in "aa" "aX" = false /\
  str_replace "aX" "X" "aa" = "aaa" /\
  str_replace "aaa" "aa" "X" = "Xa".
Proof. repeat split. Qed.

(** C4.  Whatever requests have been served since startup, failed or not,
    listing the documents succeeds, leaves the store as it is and returns the
    six seeded ids; listing succeeds on every store. *)
Theorem C4_ids_invariant (rs : list request) :
  list_documents (serve_all rs docs) = (Ok seeded_ids, serve_all rs docs) /\
  (forall x, In x (dict_keys (serve_all rs docs)) <-> In x seeded_ids) /\
  (forall d, exists ids, list_documents d = (Ok ids, d)).
Proof.
  assert (K : dict_keys (serve_all rs docs) = seeded_ids)
    by (rewrite serve_all_keys; reflexivity).
  split; [| split].
  - unfold list_documents, docs_keys. now rewrite K.
  - intros x. now rewrite K.
  - intros d. now exists (dict_keys d).
Qed.

(** C5.  Reading or getting an id that is not a key of the store raises the
    not-found error, whose message mentions the id, and leaves the store as it
    is; reading an id that is a key returns its current content and leaves the
    store as it is. *)
Theorem C5_lookup d doc_id :
  (dict_contains d doc_id = false ->
     read_doc_contents doc_id d = (Raise (NotFound doc_id), d) /\
     get_document doc_id d = (Raise (NotFound doc_id), d) /\
     mentions (NotFound doc_id) doc_id) /\
  (forall content,
     dict_get d doc_id = Some content ->
     read_doc_contents doc_id d = (Ok content, d)).
Proof.
  split.
  - intros H. split; [| split].
    + now apply read_doc_contents_absent.
    + change (get_document doc_id) with (read_doc_contents doc_id).
      now apply read_doc_contents_absent.
    + apply NotFound_mentions.
  - intros content. apply read_doc_contents_present.
Qed.

Lemma C5_lookup_witness :
  (read_doc_contents "missing.md" docs = (Raise (NotFound "missing.md"), docs) /\
   get_document "missing.md" docs = (Raise (NotFound "missing.md"), docs) /\
   mentions (NotFound "missing.md") "missing.md") /\
  read_doc_contents "report.pdf" docs =
    (Ok "The report details the state of a 20m condenser tower.", docs).
Proof.
  split.
  - apply (proj1 (C5_lookup docs "missing.md")). reflexivity.
  - apply (proj2 (C5_lookup docs "report.pdf")). reflexivity.
Defined.

(** C6, as stated, fails.  Once plan.md holds aab (the whole seeded content
    edited to aab), editing from ab to b succeeds and stores ab; the same edit
    then succeeds again, although b does not contain ab: the replacement has
    formed a fresh occurrence with the character before it. *)
Lemma C6_second_edit_counterexample :
  exists d msg1 d1 msg2 d2,
    d = serve docs
          (EditDocument "plan.md"
             "The plan outlines the steps for the project's implementation."
             "aab") /\
    dict_get d "plan.md" = Some "aab" /\
    "ab" <> "" /\
    str_in "ab" "aab" = true /\
    edit_document "plan.md" "ab" "b" d = (Ok msg1, d1) /\
    edit_document "plan.md" "ab" "b" d1 = (Ok msg2, d2) /\
    str_in "ab" "b" = false.
Proof.
  do 5 eexists.
  split; [reflexivity |]. split; [reflexivity |]. split; [discriminate |].
  split; [reflexivity |].
  split; [vm_compute; reflexivity |].
  split; [vm_compute; reflexivity | reflexivity].
Qed.

(** C6, amended.  When [doc_id] is in the store and the non-empty [old]
    occurs in its content, the edit succeeds; running the same edit again
    raises the substring-not-found error and leaves the store as it is when
    [old] no longer occurs in the updated content, and succeeds when it still
    does.  [old] still occurs whenever [new] contains [old]; nothing is said
    of the converse. *)
Theorem C6_second_edit d doc_id old new content :
  old <> "" ->
  dict_get d doc_id = Some content ->
  str_in old content = true ->
  exists msg1 d1,
    edit_document doc_id old new d = (Ok msg1, d1) /\
    dict_get d1 doc_id = Some (str_replace content old new) /\
    (str_in old (str_replace content old new) = false ->
       edit_document doc_id old new d1
         = (Raise (SubstringNotFound old doc_id), d1)) /\
    (str_in old (str_replace content old new) = true ->
       exists msg2 d2, edit_document doc_id old new d1 = (Ok msg2, d2)) /\
    (str_in old new = true ->
       str_in old (str_replace content old new) = true).
Proof.
  intros _ G Hin. do 2 eexists.
  split; [apply edit_document_found; eassumption |].
  split; [apply dict_get_setitem |].
  split; [| split].
  - intros H. eapply edit_document_not_found; [apply dict_get_setitem | exact H].
  - intros H. do 2 eexists.
    eapply edit_document_found; [apply dict_get_setitem | exact H].
  - intros H. apply str_in_occurs. apply occurs_trans with (new := new).
    + now apply str_in_occurs.
    + apply replace_occurs. now apply str_in_occurs.
Qed.

Lemma C6_second_edit_witness :
  exists msg1 d1,
    edit_document "report.pdf" "20m" "120m" docs = (Ok msg1, d1) /\
    dict_get d1 "report.pdf"
      = Some (str_replace "The report details the state of a 20m condenser tower."
                "20m" "120m") /\
    (str_in "20m"
       (str_replace "The report details the state of a 20m condenser tower."
          "20m" "120m") = false ->
       edit_document "report.pdf" "20m" "120m" d1
         = (Raise (SubstringNotFound "20m" "report.pdf"), d1)) /\
    (str_in "20m"
       (str_replace "The report details the state of a 20m condenser tower."
          "20m" "120m") = true ->
       exists msg2 d2, edit_document "report.pdf" "20m" "120m" d1 = (Ok msg2, d2)) /\
    (str_in "20m" "120m" = true ->
       str_in "20m"
         (str_replace "The report details the state of a 20m condenser tower."
            "20m" "120m") = true).
Proof.
  apply (C6_second_edit docs "report.pdf" "20m" "120m"
           "The report details the state of a 20m condenser tower.");
    [discriminate | reflexivity | reflexivity].
Defined.

(** C7.  Before any edit, reading each seeded id returns its seeded content,
    character for character. *)
Theorem C7_seeded_contents :
  read_doc_contents "deposition.md" docs =
    (Ok "This deposition covers the testimony of Angela Smith, P.E.", docs) /\
  read_doc_contents "report.pdf" docs =
    (Ok "The report details the state of a 20m condenser tower.", docs) /\
  read_doc_contents "financials.docx" docs =
    (Ok "These financials outline the project's budget and expenditures.", docs) /\
  read_doc_contents "outlook.pdf" docs =
    (Ok "This document presents the projected future performance of the system.", docs) /\
  read_doc_contents "plan.md" docs =
    (Ok "The plan outlines the steps for the project's implementation.", docs) /\
  read_doc_contents "spec.txt" docs =
    (Ok "These specifications define the technical requirements for the equipment.", docs).
Proof.
  repeat split; apply read_doc_contents_present; reflexivity.
Qed.

(** C8.  On every id and every store, getting a document and reading it give
    the same outcome: the same content, or the same error, and the same
    store. *)
Theorem C8_get_document_is_read doc_id d :
  get_document doc_id d = read_doc_contents doc_id d.
Proof. reflexivity. Qed.

(** C9.  For every id, in the store or not, each of the two prompts returns a
    text that depends on the id only, never raises, and leaves the store as it
    is. *)
Theorem C9_prompts_pure doc_id :
  (exists text, forall d, format doc_id d = (Ok text, d)) /\
  (exists text, forall d, summarize doc_id d = (Ok text, d)).
Proof. split; eexists; intros d; reflexivity. Qed.

(** C10.  When [doc_id] is in the store, an edit with the empty [old] does not
    raise: it succeeds and stores [new] put before every character of the
    content and once more at the end, which makes [n + 1] copies of [new] for
    a content of [n] characters. *)
Theorem C10_edit_empty_old d doc_id new content :
  dict_get d doc_id = Some content ->
  exists msg,
    edit_document doc_id "" new d =
      (Ok msg, dict_setitem d doc_id (interleave new content)) /\
    dict_get (dict_setitem d doc_id (interleave new content)) doc_id
      = Some (interleave new content) /\
    String.length (interleave new content)
      = String.length content + (String.length content + 1) * String.length new.
Proof.
  intros G. eexists. split; [| split].
  - rewrite <- (replace_empty_old "" new content eq_refl).
    apply edit_document_found; [exact G |].
    apply str_in_occurs, occurs_empty.
  - apply dict_get_setitem.
  - clear G. induction content as [|c s IH]; cbn [interleave String.length].
    + lia.
    + rewrite length_append. cbn [String.length]. rewrite IH. lia.
Qed.

Lemma C10_edit_empty_old_witness :
  exists msg,
    edit_document "report.pdf" "" "-" docs =
      (Ok msg, dict_setitem docs "report.pdf"
                 (interleave "-" "The report details the state of a 20m condenser tower.")) /\
    dict_get (dict_setitem docs "report.pdf"
                (interleave "-" "The report details the state of a 20m condenser tower."))
      "report.pdf"
      = Some (interleave "-" "The report details the state of a 20m condenser tower.") /\
    String.length (interleave "-" "The report details the state of a 20m condenser tower.")
      = String.length "The report details the state of a 20m condenser tower."
        + (String.length "The report details the state of a 20m condenser tower." + 1)
          * String.length "-".
Proof.
  apply (C10_edit_empty_old docs "report.pdf" "-"). reflexivity.
Defined.

(** * Further properties of the handlers *)

(** ** More on strings and the scan *)

Section MoreStrings.

Implicit Types s t p r a b : string.

Lemma append_inv_head p a b : p ++ a = p ++ b -> a = b.
Proof. induction p as [|c p IH]; simpl; intros H; [exact H | inversion H; auto]. Qed.

(** Two strings that start two equal strings and have the same length are
    equal, and so are the rests. *)
Lemma append_inv_length a b s t :
  a ++ s = b ++ t -> String.length a = String.length b -> a = b /\ s = t.
Proof.
  revert b; induction a as [|c a IH]; intros [|c' b] H L; simpl in *;
    try discriminate.
  - split; [reflexivity | exact H].
  - inversion H; subst c'. destruct (IH b) as [-> ->]; auto.
Qed.

Lemma append_inv_tail a b s : a ++ s = b ++ s -> a = b.
Proof.
  intros H. apply (append_inv_length a b s s H).
  apply (f_equal String.length) in H. rewrite !length_append in H. lia.
Qed.

End MoreStrings.

Section MoreReplace.

Variables old new : string.

(** The length of the result, from the number of replacements. *)
Lemma Replaced_length s out :
  Replaced old new s out ->
  String.length out + str_count s old * String.length old
  = String.length s + str_count s old * String.length new.
Proof.
  induction 1 as [s H | s p r r' Hold Hl _ IH | Hold | c t r' Hold _ IH].
  - rewrite count_absent by exact H. lia.
  - rewrite (count_leftmost old s p r Hold Hl).
    destruct Hl as [-> _]. rewrite !length_append. simpl. lia.
  - rewrite count_empty_old by exact Hold. subst old. simpl. lia.
  - rewrite count_empty_old in * by exact Hold. subst old.
    rewrite length_append. simpl in *. lia.
Qed.

Lemma count_occurs s : occurs old s -> 1 <= str_count s old.
Proof.
  intros H. destruct (string_dec old "") as [E | E].
  - rewrite count_empty_old by exact E. lia.
  - apply leftmost_exists in H. destruct H as [p [r Hl]].
    rewrite (count_leftmost old s p r E Hl). lia.
Qed.

(** A replacement that changes nothing replaces a string by itself. *)
Lemma replace_fixed s :
  occurs old s -> str_replace s old new = s -> old = new.
Proof.
  intros Hocc Hfix.
  pose proof (Replaced_length s _ (replace_Replaced old new s)) as HL.
  rewrite Hfix in HL. pose proof (count_occurs s Hocc) as Hk.
  assert (Hlen : String.length new = String.length old) by nia.
  destruct (string_dec old "") as [E | E].
  - subst old. destruct new; [reflexivity | discriminate].
  - apply leftmost_exists in Hocc. destruct Hocc as [p [r Hl]].
    rewrite (replace_leftmost old new s p r E Hl) in Hfix.
    destruct Hl as [Hs _]. rewrite Hs in Hfix.
    apply append_inv_head in Hfix.
    symmetry. now apply (append_inv_length new old _ _ Hfix).
Qed.

End MoreReplace.

Lemma Replaced_same old s out : Replaced old old s out -> out = s.
Proof.
  induction 1 as [s H | s p r r' Hold Hl _ IH | Hold | c t r' Hold _ IH].
  - reflexivity.
  - rewrite IH. symmetry. apply Hl.
  - now subst old.
  - subst old. now rewrite IH.
Qed.

Lemma replace_same s old : str_replace s old old = s.
Proof. apply Replaced_same with (old := old), replace_Replaced. Qed.

Section Chain.

Variables old new third : string.
Hypothesis new_nonempty : new <> "".

(** Replacing [old] by [new] and then [new] by [third] amounts to replacing
    [old] by [third], when the intermediate result holds no copy of [new]
    besides the ones put there. *)
Lemma Replaced_chain s out :
  Replaced old new s out ->
  occurrences new out <= str_count s old ->
  str_replace out new third = str_replace s old third.
Proof.
  induction 1 as [s H | s p r r' Hold Hl Hr IH | Hold | c t r' Hold Hr IH];
    intros Hn.
  - rewrite count_absent in Hn by exact H.
    rewrite (replace_absent old third s H).
    apply replace_absent, occurrences_absent. lia.
  - rewrite (count_leftmost old s p r Hold Hl) in Hn.
    pose proof (Replaced_occurrences old new new_nonempty r r' Hr) as H1.
    pose proof (occurrences_append new p (new ++ r')) as H2.
    pose proof (occurrences_head new r' new_nonempty) as H3.
    rewrite (replace_leftmost new third (p ++ new ++ r') p r' new_nonempty)
      by (apply occurrences_leftmost; [exact new_nonempty | lia]).
    rewrite IH by lia.
    now rewrite (replace_leftmost old third s p r Hold Hl).
  - rewrite (replace_empty_old old third "" Hold). cbn [interleave].
    rewrite <- (append_nil_r new) at 1.
    rewrite replace_match by exact new_nonempty.
    rewrite replace_absent; [apply append_nil_r |].
    intros [p [r H]]. destruct p; [|discriminate]. simpl in H.
    destruct new; [congruence | discriminate].
  - rewrite count_empty_old in * by exact Hold. cbn [String.length] in Hn.
    pose proof (Replaced_occurrences old new new_nonempty t r' Hr) as H1.
    rewrite count_empty_old in H1 by exact Hold.
    pose proof (occurrences_head new (String c r') new_nonempty) as H3.
    cbn [occurrences] in H3.
    rewrite replace_match by exact new_nonempty.
    rewrite replace_step
      by (destruct (prefix new (String c r')); [lia | reflexivity]).
    rewrite IH by (destruct (prefix new (String c r')); lia).
    rewrite !(replace_empty_old old third) by exact Hold. reflexivity.
Qed.

End Chain.

(** ** More on the store and the handlers *)

Section MoreHandlers.

Implicit Types (d : dict) (doc_id old new content k v : string).

(** Assignments to two different keys that are present commute. *)
Lemma dict_setitem_comm d k1 v1 k2 v2 :
  k1 <> k2 ->
  dict_contains d k1 = true ->
  dict_contains d k2 = true ->
  dict_setitem (dict_setitem d k1 v1) k2 v2
  = dict_setitem (dict_setitem d k2 v2) k1 v1.
Proof.
  intros Hk. unfold dict_contains.
  induction d as [|[k0 v0] d IH]; simpl; [discriminate |].
  destruct (k0 =? k1)%string eqn:E1; destruct (k0 =? k2)%string eqn:E2;
    simpl; rewrite ?E1, ?E2; intros H1 H2.
  - apply String.eqb_eq in E1, E2. congruence.
  - reflexivity.
  - reflexivity.
  - now rewrite IH.
Qed.

(** The outcome of an edit, by cases on the store. *)
Lemma edit_document_cases d doc_id old new :
  edit_document doc_id old new d =
  match dict_get d doc_id with
  | None => (Raise (NotFound doc_id), d)
  | Some content =>
      if str_in old content then
        (Ok ("Successfully replaced '" ++ old ++ "' with '" ++ new ++ "' in '"
               ++ doc_id ++ "'"),
         dict_setitem d doc_id (str_replace content old new))
      else (Raise (SubstringNotFound old doc_id), d)
  end.
Proof.
  destruct (dict_get d doc_id) as [c|] eqn:G.
  - destruct (str_in old c) eqn:Hin.
    + exact (edit_document_found d doc_id old new c G Hin).
    + exact (edit_document_not_found d doc_id old new c G Hin).
  - apply edit_document_absent. unfold dict_contains. now rewrite G.
Qed.

Lemma read_doc_contents_cases d doc_id :
  read_doc_contents doc_id d =
  match dict_get d doc_id with
  | None => (Raise (NotFound doc_id), d)
  | Some content => (Ok content, d)
  end.
Proof.
  destruct (dict_get d doc_id) as [c|] eqn:G.
  - now apply read_doc_contents_present.
  - apply read_doc_contents_absent. unfold dict_contains. now rewrite G.
Qed.

(** The store after one request. *)
Lemma serve_cases d (r : request) :
  serve d r =
  match r with
  | EditDocument i o n =>
      match dict_get d i with
      | Some c => if str_in o c then dict_setitem d i (str_replace c o n) else d
      | None => d
      end
  | _ => d
  end.
Proof.
  unfold serve. destruct r as [i | i o n | | i | i | i]; cbn [handle];
    rewrite bind_ret_store; try reflexivity.
  - apply read_doc_contents_store.
  - rewrite edit_document_cases.
    destruct (dict_get d i) as [c|]; [destruct (str_in o c) |]; reflexivity.
  - change (get_document i) with (read_doc_contents i).
    apply read_doc_contents_store.
Qed.

(** A request changes the content of no document but the one it edits. *)
Lemma serve_get_other d (r : request) k :
  edits k r = false -> dict_get (serve d r) k = dict_get d k.
Proof.
  intros H. rewrite serve_cases. destruct r as [i | i o n | | i | i | i];
    try reflexivity.
  cbn [edits] in H. apply String.eqb_neq in H.
  destruct (dict_get d i) as [c|]; [destruct (str_in o c) |]; try reflexivity.
  apply dict_get_setitem_other. congruence.
Qed.

(** A request neither creates nor deletes a document. *)
Lemma serve_contains d (r : request) k :
  dict_contains (serve d r) k = dict_contains d k.
Proof.
  destruct (edits k r) eqn:E.
  - destruct r as [i | i o n | | i | i | i]; try discriminate.
    cbn [edits] in E. apply String.eqb_eq in E; subst i.
    rewrite serve_cases. unfold dict_contains.
    destruct (dict_get d k) as [c|] eqn:G; [destruct (str_in o c) |];
      rewrite ?dict_get_setitem, ?G; reflexivity.
  - unfold dict_contains. now rewrite serve_get_other.
Qed.

Lemma serve_all_cons (r : request) rs d :
  serve_all (r :: rs) d = serve_all rs (serve d r).
Proof. reflexivity. Qed.

End MoreHandlers.

(** ** Errors *)

(** An edit of a document that is not in the store raises the not-found
    error, whose message mentions the id, and leaves the store as it is,
    whatever the two strings are: the id is checked before the content is
    looked at. *)
Theorem edit_document_missing_id d doc_id old new :
  dict_contains d doc_id = false ->
  edit_document doc_id old new d = (Raise (NotFound doc_id), d) /\
  mentions (NotFound doc_id) doc_id.
Proof.
  intros H. split; [now apply edit_document_absent | apply NotFound_mentions].
Qed.

Lemma edit_document_missing_id_witness :
  edit_document "notes.md" "the" "a" docs = (Raise (NotFound "notes.md"), docs) /\
  mentions (NotFound "notes.md") "notes.md".
Proof.
  apply (edit_document_missing_id docs "notes.md" "the" "a"). reflexivity.
Defined.

(** Whatever the request and the store, a handler that raises has left the
    store as it was, and what it raises is one of the two [ValueError]s: the
    not-found error of an id that is not in the store, or the
    substring-not-found error of a string that is not in the document.  The
    lookups [docs[doc_id]] never raise [KeyError]. *)
Theorem handle_raises (r : request) d e d' :
  handle r d = (Raise e, d') ->
  d' = d /\
  ((exists doc_id, e = NotFound doc_id /\ dict_contains d doc_id = false) \/
   (exists doc_id old content,
       e = SubstringNotFound old doc_id /\
       dict_get d doc_id = Some content /\ str_in old content = false)).
Proof.
  assert (R : forall i, read_doc_contents i d = (Raise e, d') \/
                        get_document i d = (Raise e, d') ->
              d' = d /\ e = NotFound i /\ dict_contains d i = false).
  { intros i H.
    assert (H' : read_doc_contents i d = (Raise e, d')) by (destruct H; exact H).
    rewrite read_doc_contents_cases in H'. unfold dict_contains.
    destruct (dict_get d i); inversion H'; auto. }
  destruct r as [i | i o n | | i | i | i]; cbn [handle]; unfold bind at 1.
  - destruct (read_doc_contents i d) as [[s | e0] d0] eqn:E; intros H;
      inversion H; subst.
    destruct (R i (or_introl E)) as [-> [-> Hc]]. eauto.
  - rewrite edit_document_cases. destruct (dict_get d i) as [c|] eqn:G.
    + destruct (str_in o c) eqn:Hin; intros H; inversion H; subst.
      split; [reflexivity |]. right. exists i, o, c. auto.
    + intros H; inversion H; subst. split; [reflexivity |]. left.
      exists i. unfold dict_contains. rewrite G. auto.
  - discriminate.
  - destruct (get_document i d) as [[s | e0] d0] eqn:E; intros H;
      inversion H; subst.
    destruct (R i (or_intror E)) as [-> [-> Hc]]. eauto.
  - discriminate.
  - discriminate.
Qed.

Lemma handle_raises_witness :
  docs = docs /\
  ((exists doc_id, SubstringNotFound "budget" "plan.md" = NotFound doc_id /\
                   dict_contains docs doc_id = false) \/
   (exists doc_id old content,
       SubstringNotFound "budget" "plan.md" = SubstringNotFound old doc_id /\
       dict_get docs doc_id = Some content /\ str_in old content = false)).
Proof.
  apply (handle_raises (EditDocument "plan.md" "budget" "cost") docs).
  reflexivity.
Defined.

(** ** What an edit changes *)

(** A successful edit keeps the ids and their order, and what a read of any
    other document returns. *)
Theorem edit_document_frame d doc_id old new msg d' :
  edit_document doc_id old new d = (Ok msg, d') ->
  dict_keys d' = dict_keys d /\
  (forall k, k <> doc_id ->
     fst (read_doc_contents k d') = fst (read_doc_contents k d)).
Proof.
  rewrite edit_document_cases. destruct (dict_get d doc_id) as [c|] eqn:G;
    [destruct (str_in old c) |]; intros H; inversion H; subst. split.
  - apply dict_keys_setitem, dict_contains_get. eauto.
  - intros k Hk. rewrite !read_doc_contents_cases.
    rewrite dict_get_setitem_other by exact Hk.
    now destruct (dict_get d k).
Qed.

Lemma edit_document_frame_witness :
  dict_keys (dict_setitem docs "report.pdf"
               "The report details the state of a 30m condenser tower.")
    = dict_keys docs /\
  (forall k, k <> "report.pdf" ->
     fst (read_doc_contents k
            (dict_setitem docs "report.pdf"
               "The report details the state of a 30m condenser tower."))
     = fst (read_doc_contents k docs)).
Proof.
  apply (edit_document_frame docs "report.pdf" "20m" "30m"
           "Successfully replaced '20m' with '30m' in 'report.pdf'").
  reflexivity.
Defined.

(** When [doc_id] is in the store and [old] occurs in its content, the edit
    succeeds, and it leaves the store exactly as it was if and only if [old]
    and [new] are the same string. *)
Theorem edit_document_noop_iff d doc_id old new content :
  dict_get d doc_id = Some content ->
  str_in old content = true ->
  exists msg d',
    edit_document doc_id old new d = (Ok msg, d') /\
    (d' = d <-> old = new).
Proof.
  intros G Hin. do 2 eexists. split.
  - apply edit_document_found; eassumption.
  - split.
    + intros H. apply (replace_fixed old new content).
      * now apply str_in_occurs.
      * apply (f_equal (fun x => dict_get x doc_id)) in H. cbv beta in H.
        rewrite dict_get_setitem, G in H. congruence.
    + intros <-. rewrite replace_same. now apply dict_setitem_same.
Qed.

Lemma edit_document_noop_iff_witness :
  exists msg d',
    edit_document "spec.txt" "the" "the" docs = (Ok msg, d') /\
    (d' = docs <-> "the" = "the").
Proof.
  apply (edit_document_noop_iff docs "spec.txt" "the" "the"
           "These specifications define the technical requirements for the equipment.");
    reflexivity.
Defined.

(** When [doc_id] is in the store and [old] occurs in its content, the edit
    replaces at least one occurrence, and the length of the new content is
    that of the old one with [length old] taken away and [length new] added
    for each occurrence replaced. *)
Theorem edit_document_length d doc_id old new content :
  dict_get d doc_id = Some content ->
  str_in old content = true ->
  exists msg d' content',
    edit_document doc_id old new d = (Ok msg, d') /\
    read_doc_contents doc_id d' = (Ok content', d') /\
    1 <= str_count content old /\
    String.length content' + str_count content old * String.length old
    = String.length content + str_count content old * String.length new.
Proof.
  intros G Hin. do 3 eexists. split; [| split; [| split]].
  - apply edit_document_found; eassumption.
  - apply read_doc_contents_present, dict_get_setitem.
  - now apply count_occurs, str_in_occurs.
  - apply Replaced_length, replace_Replaced.
Qed.

Lemma edit_document_length_witness :
  exists msg d' content',
    edit_document "spec.txt" "the " "" docs = (Ok msg, d') /\
    read_doc_contents "spec.txt" d' = (Ok content', d') /\
    1 <= str_count "These specifications define the technical requirements for the equipment." "the " /\
    String.length content'
      + str_count "These specifications define the technical requirements for the equipment." "the "
        * String.length "the "
    = String.length "These specifications define the technical requirements for the equipment."
      + str_count "These specifications define the technical requirements for the equipment." "the "
        * String.length "".
Proof.
  apply (edit_document_length docs "spec.txt" "the " ""); reflexivity.
Defined.

(** ** Rewriting a whole document *)

(** The step the [format] prompt asks for: when [doc_id] is in the store, an
    edit whose [old] is the whole current content, empty or not, succeeds and
    makes [new] the content, as the next read shows. *)
Theorem edit_document_whole_content d doc_id new content :
  dict_get d doc_id = Some content ->
  exists msg d',
    edit_document doc_id content new d = (Ok msg, d') /\
    read_doc_contents doc_id d' = (Ok new, d').
Proof.
  intros G.
  assert (Hin : str_in content content = true).
  { apply str_in_occurs. exists "", "". simpl. now rewrite append_nil_r. }
  assert (Hr : str_replace content content new = new).
  { destruct (string_dec content "") as [E | E].
    - rewrite replace_empty_old by exact E. now rewrite E.
    - rewrite <- (append_nil_r content) at 1.
      rewrite replace_match by exact E.
      rewrite replace_absent; [apply append_nil_r |].
      intros [p [r H]]. destruct p; [|discriminate]. simpl in H.
      destruct content; [congruence | discriminate]. }
  do 2 eexists. split.
  - apply edit_document_found; eassumption.
  - rewrite Hr. apply read_doc_contents_present, dict_get_setitem.
Qed.

Lemma edit_document_whole_content_witness :
  exists msg d',
    edit_document "plan.md"
      "The plan outlines the steps for the project's implementation."
      "# Plan" docs = (Ok msg, d') /\
    read_doc_contents "plan.md" d' = (Ok "# Plan", d').
Proof.
  apply (edit_document_whole_content docs "plan.md" "# Plan"). reflexivity.
Defined.

(** ** How edits compose *)

(** Edits of two different documents do not see each other: each one gives
    the same result, message or error, whether it runs before or after the
    other, and the two orders leave the same store. *)
Theorem edit_document_commute d id1 old1 new1 id2 old2 new2 :
  id1 <> id2 ->
  fst (edit_document id1 old1 new1 (snd (edit_document id2 old2 new2 d)))
    = fst (edit_document id1 old1 new1 d) /\
  fst (edit_document id2 old2 new2 (snd (edit_document id1 old1 new1 d)))
    = fst (edit_document id2 old2 new2 d) /\
  snd (edit_document id2 old2 new2 (snd (edit_document id1 old1 new1 d)))
    = snd (edit_document id1 old1 new1 (snd (edit_document id2 old2 new2 d))).
Proof.
  intros Hne.
  assert (Hne' : id2 <> id1) by congruence.
  rewrite (edit_document_cases d id1), (edit_document_cases d id2).
  destruct (dict_get d id1) as [c1|] eqn:G1;
    destruct (dict_get d id2) as [c2|] eqn:G2;
    try destruct (str_in old1 c1) eqn:H1; try destruct (str_in old2 c2) eqn:H2;
    cbn [fst snd]; rewrite !edit_document_cases;
    rewrite ?dict_get_setitem_other by assumption;
    rewrite ?G1, ?G2, ?H1, ?H2; cbn [fst snd];
    repeat split; try reflexivity.
  apply dict_setitem_comm; [exact Hne | |];
    apply dict_contains_get; eauto.
Qed.

Lemma edit_document_commute_witness :
  fst (edit_document "plan.md" "steps" "stages"
         (snd (edit_document "report.pdf" "20m" "30m" docs)))
    = fst (edit_document "plan.md" "steps" "stages" docs) /\
  fst (edit_document "report.pdf" "20m" "30m"
         (snd (edit_document "plan.md" "steps" "stages" docs)))
    = fst (edit_document "report.pdf" "20m" "30m" docs) /\
  snd (edit_document "report.pdf" "20m" "30m"
         (snd (edit_document "plan.md" "steps" "stages" docs)))
    = snd (edit_document "plan.md" "steps" "stages"
             (snd (edit_document "report.pdf" "20m" "30m" docs))).
Proof.
  apply (edit_document_commute docs "plan.md" "steps" "stages"
           "report.pdf" "20m" "30m").
  discriminate.
Defined.

(** When [doc_id] is in the store, [old] occurs in its content, [new] is not
    empty and occurs in the edited content only where the edit put it, editing
    from [old] to [new] and then from [new] to [third] succeeds twice and
    leaves the store that the single edit from [old] to [third] leaves. *)
Theorem edit_document_chain d doc_id old new third content :
  dict_get d doc_id = Some content ->
  str_in old content = true ->
  new <> "" ->
  occurrences new (str_replace content old new) = str_count content old ->
  exists msg1 d1 msg2 d2 msg3,
    edit_document doc_id old new d = (Ok msg1, d1) /\
    edit_document doc_id new third d1 = (Ok msg2, d2) /\
    edit_document doc_id old third d = (Ok msg3, d2).
Proof.
  intros G Hin Hnew Hocc.
  pose proof (replace_Replaced old new content) as HR.
  assert (Hc : str_replace (str_replace content old new) new third
               = str_replace content old third).
  { apply (Replaced_chain old new third Hnew content _ HR). lia. }
  do 5 eexists. split; [| split].
  - apply edit_document_found; eassumption.
  - apply edit_document_found.
    + apply dict_get_setitem.
    + apply str_in_occurs, replace_occurs, str_in_occurs, Hin.
  - rewrite Hc, dict_setitem_twice. apply edit_document_found; assumption.
Qed.

Lemma edit_document_chain_witness :
  exists msg1 d1 msg2 d2 msg3,
    edit_document "report.pdf" "tower" "stack" docs = (Ok msg1, d1) /\
    edit_document "report.pdf" "stack" "unit" d1 = (Ok msg2, d2) /\
    edit_document "report.pdf" "tower" "unit" docs = (Ok msg3, d2).
Proof.
  apply (edit_document_chain docs "report.pdf" "tower" "stack" "unit"
           "The report details the state of a 20m condenser tower.");
    [reflexivity | reflexivity | discriminate | reflexivity].
Defined.

(** ** Sequences of requests *)

(** Whatever the store and the requests served, a document can be read
    afterwards exactly when it could be read before: no sequence of requests
    creates or deletes a document. *)
Theorem readable_invariant (rs : list request) d doc_id :
  (exists content,
      read_doc_contents doc_id (serve_all rs d) = (Ok content, serve_all rs d))
  <->
  (exists content, read_doc_contents doc_id d = (Ok content, d)).
Proof.
  assert (C : forall d0, (exists content,
                 read_doc_contents doc_id d0 = (Ok content, d0))
              <-> dict_contains d0 doc_id = true).
  { intros d0. rewrite read_doc_contents_cases. unfold dict_contains.
    destruct (dict_get d0 doc_id) as [c|]; split; eauto.
    - intros [c H]; discriminate.
    - discriminate. }
  rewrite !C. clear C. revert d; induction rs as [|r rs IH]; intros d.
  - reflexivity.
  - rewrite serve_all_cons, IH, serve_contains. reflexivity.
Qed.

(** A document that none of the requests served edits is read afterwards as
    it was read before, whatever the requests did to the other documents. *)
Theorem unedited_document_unchanged (rs : list request) d doc_id :
  (forall r, In r rs -> edits doc_id r = false) ->
  fst (read_doc_contents doc_id (serve_all rs d))
  = fst (read_doc_contents doc_id d).
Proof.
  intros H.
  assert (G : dict_get (serve_all rs d) doc_id = dict_get d doc_id).
  { revert d; induction rs as [|r rs IH]; intros d; [reflexivity |].
    rewrite serve_all_cons, IH by (intros r' Hr; apply H; now right).
    apply serve_get_other, H. now left. }
  rewrite !read_doc_contents_cases, G. now destruct (dict_get d doc_id).
Qed.

Lemma unedited_document_unchanged_witness :
  fst (read_doc_contents "plan.md"
         (serve_all [EditDocument "report.pdf" "20m" "30m"; ListDocuments;
                     EditDocument "spec.txt" "" "-"] docs))
  = fst (read_doc_contents "plan.md" docs).
Proof.
  apply (unedited_document_unchanged
           [EditDocument "report.pdf" "20m" "30m"; ListDocuments;
            EditDocument "spec.txt" "" "-"] docs "plan.md").
  intros r [<- | [<- | [<- | []]]]; reflexivity.
Defined.

(** Reads, listings and prompts write nothing: a sequence of requests without
    an edit leaves the store exactly as it was. *)
Theorem read_only_requests (rs : list request) d :
  (forall r, In r rs -> is_edit r = false) ->
  serve_all rs d = d.
Proof.
  induction rs as [|r rs IH]; intros H; [reflexivity |].
  rewrite serve_all_cons.
  assert (E : serve d r = d).
  { rewrite serve_cases. specialize (H r (or_introl eq_refl)).
    destruct r; try reflexivity; discriminate. }
  rewrite E. apply IH. intros r' Hr. apply H. now right.
Qed.

Lemma read_only_requests_witness :
  serve_all [ReadDocContents "plan.md"; GetDocument "missing.md";
             ListDocuments; Format "plan.md"; Summarize "x"] docs = docs.
Proof.
  apply (read_only_requests
           [ReadDocContents "plan.md"; GetDocument "missing.md";
            ListDocuments; Format "plan.md"; Summarize "x"] docs).
  intros r [<- | [<- | [<- | [<- | [<- | []]]]]]; reflexivity.
Defined.

(** ** The prompts *)

(** Each prompt quotes the id it is given, and tells ids apart: two ids with
    the same prompt are the same id.  No id gives the two prompts the same
    text. *)
Theorem prompts_injective d :
  (forall a b, fst (format a d) = fst (format b d) -> a = b) /\
  (forall a b, fst (summarize a d) = fst (summarize b d) -> a = b) /\
  (forall a b, fst (format a d) <> fst (summarize b d)) /\
  (forall a text, fst (format a d) = Ok text ->
                  str_in ("'" ++ a ++ "'") text = true) /\
  (forall a text, fst (summarize a d) = Ok text ->
                  str_in ("'" ++ a ++ "'") text = true).
Proof.
  unfold format, summarize, ret; cbn [fst].
  split; [| split; [| split; [| split]]].
  - intros a b H. inversion H as [H']. now apply append_inv_tail in H'.
  - intros a b H. inversion H as [H']. now apply append_inv_tail in H'.
  - intros a b H. inversion H.
  - intros a text H. inversion H. apply str_in_occurs.
    exists "Please rewrite the document ". eexists.
    cbn [append]. rewrite !append_assoc. reflexivity.
  - intros a text H. inversion H. apply str_in_occurs.
    exists "Please provide a concise summary of the document ". eexists.
    cbn [append]. rewrite !append_assoc. reflexivity.
Qed.
